(** * GestureController: the per-tick gesture step of
      [src/components/GestureController.tsx]

    The component keeps two refs ([lastGestureTime], [currentStateRef]) and
    talks to its parent through three callback props.  [processGestures] is
    embedded in a small state-and-exception monad over those refs and the log
    of callback invocations; JavaScript numbers are IEEE binary64 values
    ([PrimFloat.float]), [Date.now()] is an integral number of milliseconds
    ([Z]). *)

From Stdlib Require Import ZArith List Bool Lia PrimFloat.
Import ListNotations.
Local Open Scope Z_scope.

(* Decimal literals such as 1.2 and 0.05 denote the nearest binary64 value,
   as they do in JavaScript. *)
Set Warnings "-inexact-float".

(* ------------------------------------------------------------------ *)
(** ** Data *)

(** Modelled from the spec: the enum [TreeState] is imported from
    [../types], which is not part of the sources; the spec enumerates it as
    TREE_SHAPE, SCATTERED, PHOTO_VIEW. *)
Inductive TreeState : Type :=
  | TREE_SHAPE
  | SCATTERED
  | PHOTO_VIEW.

(** [a === b] on two [TreeState] values. *)
Definition TreeState_eqb (a b : TreeState) : bool :=
  match a, b with
  | TREE_SHAPE, TREE_SHAPE | SCATTERED, SCATTERED | PHOTO_VIEW, PHOTO_VIEW => true
  | _, _ => false
  end.

(** One landmark; only the planar coordinates are read by the component. *)
Record Joint : Type := mkJoint { x : float; y : float }.

(** [landmarks: any[]].  A slot holding [None] is a slot reading [undefined];
    so does every index past the end of the array. *)
Definition Landmarks : Type := list (option Joint).

(** [landmarks[i]] *)
Definition index (landmarks : Landmarks) (i : nat) : option Joint :=
  match nth_error landmarks i with
  | Some (Some j) => Some j
  | _ => None
  end.

(** An invocation of one of the three callback props. *)
Inductive Call : Type :=
  | onStateChange (state : TreeState)
  | onCameraMove (dx dy : float)
  | onPhotoGrab (isGrabbing : bool).

(** The two refs of the component and the callback invocations made so far,
    oldest first. *)
Record World : Type := mkWorld {
  lastGestureTime : Z;
  currentStateRef : TreeState;
  calls : list Call
}.

(** [useRef<number>(0)], [useRef<TreeState>(TreeState.TREE_SHAPE)] *)
Definition initialWorld : World := mkWorld 0 TREE_SHAPE [].

(* ------------------------------------------------------------------ *)
(** ** The monad of the step: refs, callback log, exceptions *)

Inductive Error : Type := TypeError.

Inductive Completion (A : Type) : Type :=
  | Normal (a : A)
  | Throw (e : Error).
Arguments Normal {A} a.
Arguments Throw {A} e.

Definition M (A : Type) : Type := World -> Completion A * World.

Definition ret {A : Type} (a : A) : M A := fun w => (Normal a, w).

Definition throw {A : Type} (e : Error) : M A := fun w => (Throw e, w).

Definition bind {A B : Type} (m : M A) (k : A -> M B) : M B :=
  fun w =>
    match m w with
    | (Normal a, w') => k a w'
    | (Throw e, w') => (Throw e, w')
    end.

Declare Scope js_scope.
Delimit Scope js_scope with js.
Notation "v <- m ;; k" := (bind m (fun v => k))
  (at level 61, m at next level, right associativity) : js_scope.
Notation "m ;; k" := (bind m (fun _ => k))
  (at level 61, right associativity) : js_scope.
Local Open Scope js_scope.

Definition readLastGestureTime : M Z :=
  fun w => (Normal (lastGestureTime w), w).

Definition writeLastGestureTime (t : Z) : M unit :=
  fun w => (Normal tt, mkWorld t (currentStateRef w) (calls w)).

Definition readCurrentState : M TreeState :=
  fun w => (Normal (currentStateRef w), w).

Definition writeCurrentState (s : TreeState) : M unit :=
  fun w => (Normal tt, mkWorld (lastGestureTime w) s (calls w)).

(** Calling a callback prop appends to the log. *)
Definition invoke (c : Call) : M unit :=
  fun w => (Normal tt, mkWorld (lastGestureTime w) (currentStateRef w) (calls w ++ [c])).

(** [o.x] / [o.y]: reading a property of [undefined] throws a TypeError. *)
Definition field {A : Type} (f : Joint -> A) (o : option Joint) : M A :=
  match o with
  | Some j => ret (f j)
  | None => throw TypeError
  end.

(** [l.forEach((a, i) => body)], where the body updates a captured local of
    type [C]; an exception in the body ends the loop. *)
Fixpoint forEachFrom {A C : Type} (body : A -> nat -> C -> M C)
    (l : list A) (i : nat) (acc : C) : M C :=
  match l with
  | [] => ret acc
  | a :: l' => acc' <- body a i acc ;; forEachFrom body l' (S i) acc'
  end.

Definition forEach {A C : Type} (body : A -> nat -> C -> M C) (l : list A) (acc : C) : M C :=
  forEachFrom body l 0%nat acc.

(** The callback invocations a computation adds to the log. *)
Definition during {A : Type} (m : M A) (w : World) : list Call :=
  skipn (length (calls w)) (calls (snd (m w))).

(** A reference [Math.hypot] for running the model on concrete frames: the
    correctly rounded square root of the rounded sum of squares.  Every
    concrete frame below has axis-aligned offsets with dyadic coordinates, on
    which it is exact. *)
Definition hypot_sqrt (a b : float) : float :=
  PrimFloat.sqrt (a * a + b * b)%float.

(* ------------------------------------------------------------------ *)
(** ** Concrete frames *)

(** A 21-joint hand: the unused joints sit on the wrist. *)
Definition hand (wrist thumbTip indexMcp indexTip middleMcp middleTip
                 ringMcp ringTip pinkyMcp pinkyTip : Joint) : Landmarks :=
  map Some
    [wrist; wrist; wrist; wrist; thumbTip;
     indexMcp; wrist; wrist; indexTip;
     middleMcp; wrist; wrist; middleTip;
     ringMcp; wrist; wrist; ringTip;
     pinkyMcp; wrist; wrist; pinkyTip].

Definition wristJ : Joint := mkJoint 0.25 0.5.
Definition knuckleJ : Joint := mkJoint 0.25 0.25.   (* 0.25 above the wrist *)
Definition openTipJ : Joint := mkJoint 0.25 0.     (* 0.5 above the wrist *)
Definition curledTipJ : Joint := mkJoint 0.25 0.375. (* 0.125 above the wrist *)
Definition thumbAwayOpenJ : Joint := mkJoint 0.5 0.      (* 0.25 right of openTipJ *)
Definition thumbAwayCurledJ : Joint := mkJoint 0.5 0.375. (* 0.25 right of curledTipJ *)

(** Four fingers extended, thumb away from the index tip. *)
Definition openPalmFrame : Landmarks :=
  hand wristJ thumbAwayOpenJ knuckleJ openTipJ knuckleJ openTipJ
       knuckleJ openTipJ knuckleJ openTipJ.

(** Four fingers curled, thumb away from the index tip. *)
Definition fistFrame : Landmarks :=
  hand wristJ thumbAwayCurledJ knuckleJ curledTipJ knuckleJ curledTipJ
       knuckleJ curledTipJ knuckleJ curledTipJ.

(** Four fingers curled, thumb tip on the index tip. *)
Definition pinchFrame : Landmarks :=
  hand wristJ curledTipJ knuckleJ curledTipJ knuckleJ curledTipJ
       knuckleJ curledTipJ knuckleJ curledTipJ.

(** Index and middle extended, ring and pinky curled, thumb away. *)
Definition twoFingerFrame : Landmarks :=
  hand wristJ thumbAwayOpenJ knuckleJ openTipJ knuckleJ openTipJ
       knuckleJ curledTipJ knuckleJ curledTipJ.

(** A hand truncated after the index fingertip: nine joints. *)
Definition truncatedFrame : Landmarks := firstn 9 openPalmFrame.

(** Four fingers extended, thumb tip on the index tip. *)
Definition pinchOpenFrame : Landmarks :=
  hand wristJ openTipJ knuckleJ openTipJ knuckleJ openTipJ
       knuckleJ openTipJ knuckleJ openTipJ.

(** An open palm as a detector with more landmarks would deliver it: the
    unused joints moved off the wrist, one empty slot and one joint past
    index 20. *)
Definition paddedPalmFrame : Landmarks :=
  [Some wristJ; Some knuckleJ; Some knuckleJ; Some openTipJ; Some thumbAwayOpenJ;
   Some knuckleJ; Some curledTipJ; None; Some openTipJ;
   Some knuckleJ; Some curledTipJ; Some curledTipJ; Some openTipJ;
   Some knuckleJ; None; Some curledTipJ; Some openTipJ;
   Some knuckleJ; Some curledTipJ; Some curledTipJ; Some openTipJ;
   None; Some wristJ].

(* ------------------------------------------------------------------ *)
(** ** processGestures *)

Section GestureController.

(** [Math.hypot], a built-in whose result is implementation-approximated. *)
Variable hypot : float -> float -> float.

Definition tips : list nat := [8; 12; 16; 20]%nat.  (* Index, Middle, Ring, Pinky *)
Definition mcp : list nat := [5; 9; 13; 17]%nat.    (* Knuckles *)

(** [mcp[i]] then [landmarks[mcp[i]]] *)
Definition knuckleOf (landmarks : Landmarks) (i : nat) : option Joint :=
  match nth_error mcp i with
  | Some k => index landmarks k
  | None => None
  end.

(** Body of [tips.forEach((tipIdx, i) => ...)], lines 97-104; the captured
    counter [fingersOpen] is threaded through. *)
Definition countFinger (landmarks : Landmarks) (wrist : option Joint)
    (tipIdx i : nat) (fingersOpen : Z) : M Z :=
  let tip := index landmarks tipIdx in
  let knuckle := knuckleOf landmarks i in
  tx <- field x tip ;;
  wx <- field x wrist ;;
  ty <- field y tip ;;
  wy <- field y wrist ;;
  let distTip := hypot (tx - wx) (ty - wy) in
  kx <- field x knuckle ;;
  wx' <- field x wrist ;;
  ky <- field y knuckle ;;
  wy' <- field y wrist ;;
  let distKnuckle := hypot (kx - wx') (ky - wy') in
  ret (if PrimFloat.ltb (distKnuckle * 1.2) distTip then fingersOpen + 1 else fingersOpen).

(** Lines 92-110: the open-finger count and the pinch flag. *)
Definition classifyPose (landmarks : Landmarks) : M (Z * bool) :=
  let wrist := index landmarks 0 in
  fingersOpen <- forEach (countFinger landmarks wrist) tips 0 ;;
  let thumbTip := index landmarks 4 in
  let indexTip := index landmarks 8 in
  tx <- field x thumbTip ;;
  ix <- field x indexTip ;;
  ty <- field y thumbTip ;;
  iy <- field y indexTip ;;
  let pinchDist := hypot (tx - ix) (ty - iy) in
  let isPinching := PrimFloat.ltb pinchDist 0.05 in
  ret (fingersOpen, isPinching).

(** Lines 114-134: the if / else-if chain and the commit. *)
Definition stateMachine (now : Z) (fingersOpen : Z) (isPinching : bool) : M unit :=
  cur <- readCurrentState ;;
  newState <-
    (if isPinching && TreeState_eqb cur SCATTERED then
       invoke (onPhotoGrab true) ;; ret PHOTO_VIEW
     else if 4 <=? fingersOpen then
       invoke (onPhotoGrab false) ;; ret SCATTERED
     else if (fingersOpen =? 0) && negb isPinching then
       invoke (onPhotoGrab false) ;; ret TREE_SHAPE
     else ret cur) ;;
  cur' <- readCurrentState ;;
  if negb (TreeState_eqb newState cur') then
    writeCurrentState newState ;;
    invoke (onStateChange newState) ;;
    writeLastGestureTime now
  else ret tt.

(** Lines 136-142: camera rotation while scattered. *)
Definition cameraControl (wrist : option Joint) : M unit :=
  cur <- readCurrentState ;;
  if TreeState_eqb cur SCATTERED then
    wx <- field x wrist ;;
    let cx := ((0.5 - wx) * 4)%float in
    wy <- field y wrist ;;
    let cy := ((0.5 - wy) * 2)%float in
    invoke (onCameraMove cx cy)
  else ret tt.

(** Lines 87-143; [now] is the value of [Date.now()] at line 88. *)
Definition processGestures (now : Z) (landmarks : Landmarks) : M unit :=
  last <- readLastGestureTime ;;
  if now - last <? 500 then ret tt
  else
    pose <- classifyPose landmarks ;;
    stateMachine now (fst pose) (snd pose) ;;
    cameraControl (index landmarks 0).

(** Lines 52-57, the [hands.onResults] handler: [multiHandLandmarks] may be
    missing ([None]) or hold one landmark array per detected hand. *)
Definition onResults (now : Z) (multiHandLandmarks : option (list Landmarks)) : M unit :=
  match multiHandLandmarks with
  | Some (landmarks :: _) => processGestures now landmarks
  | _ => ret tt
  end.

(** A tick: the clock reading and what the detector delivered. *)
Definition Tick : Type := (Z * option (list Landmarks))%type.

(** The refs and the log survive a handler that throws. *)
Definition tick (t : Tick) (w : World) : World :=
  snd (onResults (fst t) (snd t) w).

Definition run (w : World) (ticks : list Tick) : World :=
  fold_left (fun w t => tick t w) ticks w.

(* ------------------------------------------------------------------ *)
(** ** Vocabulary of the specification *)

(** The joints the step reads: wrist, thumb tip, and knuckle and tip of the
    four fingers. *)
Definition expectedIndices : list nat := [0; 4; 5; 8; 9; 12; 13; 16; 17; 20]%nat.

Definition defined (o : option Joint) : bool :=
  match o with Some _ => true | None => false end.

Definition wellFormed (landmarks : Landmarks) : bool :=
  forallb (fun i => defined (index landmarks i)) expectedIndices.

(** A malformed frame: fewer than 21 joints, or an expected index missing. *)
Definition malformed (landmarks : Landmarks) : Prop :=
  (length landmarks < 21)%nat \/
  exists i, In i expectedIndices /\ index landmarks i = None.

(** The joint at an index of a well-formed frame. *)
Definition jointAt (landmarks : Landmarks) (i : nat) : Joint :=
  match index landmarks i with
  | Some j => j
  | None => mkJoint 0 0
  end.

(** Planar distance between two joints, as [Math.hypot] computes it. *)
Definition distance (a b : Joint) : float :=
  hypot (x a - x b) (y a - y b).

(** Spec 4.1: a finger is open iff
    [distance(wrist, tip) > 1.2 * distance(wrist, knuckle)]. *)
Definition fingerOpen (landmarks : Landmarks) (f : nat * nat) : bool :=
  let wrist := jointAt landmarks 0 in
  PrimFloat.ltb (distance (jointAt landmarks (snd f)) wrist * 1.2)
                (distance (jointAt landmarks (fst f)) wrist).

(** (tip, knuckle) of index, middle, ring and pinky; no entry for the thumb. *)
Definition fingers : list (nat * nat) := [(8, 5); (12, 9); (16, 13); (20, 17)]%nat.

Definition fingersOpenSpec (landmarks : Landmarks) : Z :=
  Z.of_nat (length (filter (fingerOpen landmarks) fingers)).

(** Spec 4.1: [isPinching = distance(thumb tip, index tip) < 0.05]. *)
Definition isPinchingSpec (landmarks : Landmarks) : bool :=
  PrimFloat.ltb (distance (jointAt landmarks 4) (jointAt landmarks 8)) 0.05.

(** What the classification block of the step yields on a frame. *)
Definition pose (landmarks : Landmarks) : Completion (Z * bool) :=
  fst (classifyPose landmarks initialWorld).

(** Spec 4.2: the priority list of transition rules. *)
Inductive Rule : Type := Rule1 | Rule2 | Rule3 | NoRule.

Definition matchedRule (cur : TreeState) (fingersOpen : Z) (isPinching : bool) : Rule :=
  if isPinching && TreeState_eqb cur SCATTERED then Rule1
  else if 4 <=? fingersOpen then Rule2
  else if (fingersOpen =? 0) && negb isPinching then Rule3
  else NoRule.

(** The state a rule requests; the current one when no rule matches. *)
Definition target (cur : TreeState) (fingersOpen : Z) (isPinching : bool) : TreeState :=
  match matchedRule cur fingersOpen isPinching with
  | Rule1 => PHOTO_VIEW
  | Rule2 => SCATTERED
  | Rule3 => TREE_SHAPE
  | NoRule => cur
  end.

(** The photoGrab side effect of a rule. *)
Definition grabOf (r : Rule) : list Call :=
  match r with
  | Rule1 => [onPhotoGrab true]
  | Rule2 | Rule3 => [onPhotoGrab false]
  | NoRule => []
  end.

(** The rate limit of line 90. *)
Definition rateLimited (now : Z) (w : World) : bool :=
  now - lastGestureTime w <? 500.

(** The pose classified on a tick, when a hand was delivered and every joint
    the step reads is there. *)
Definition tickPose (t : Tick) : option (Z * bool) :=
  match snd t with
  | Some (landmarks :: _) =>
      match pose landmarks with
      | Normal p => Some p
      | Throw _ => None
      end
  | _ => None
  end.

Definition tickPinching (t : Tick) : bool :=
  match tickPose t with
  | Some (_, isPinching) => isPinching
  | None => false
  end.

(** A computation that neither reads nor changes the refs and calls no
    callback. *)
Definition Pure {A : Type} (m : M A) : Prop :=
  forall w, m w = (fst (m initialWorld), w).

(** Whether the requested state differs from the current one. *)
Definition commits (cur : TreeState) (fingersOpen : Z) (isPinching : bool) : bool :=
  negb (TreeState_eqb (target cur fingersOpen isPinching) cur).

(** Spec 4.3: the pan delta for a wrist position. *)
Definition cameraDelta (wrist : Joint) : Call :=
  onCameraMove ((0.5 - x wrist) * 4) ((0.5 - y wrist) * 2).

Definition isStateChange (c : Call) : bool :=
  match c with onStateChange _ => true | _ => false end.

Definition isCameraMove (c : Call) : bool :=
  match c with onCameraMove _ _ => true | _ => false end.

Definition isPhotoGrab (c : Call) : bool :=
  match c with onPhotoGrab _ => true | _ => false end.

(** The callbacks of a tick that gets past the rate limit, in call order. *)
Definition processedCalls (cur : TreeState) (fingersOpen : Z) (isPinching : bool)
    (wrist : Joint) : list Call :=
  grabOf (matchedRule cur fingersOpen isPinching)
  ++ (if commits cur fingersOpen isPinching
      then [onStateChange (target cur fingersOpen isPinching)] else [])
  ++ (if TreeState_eqb (target cur fingersOpen isPinching) SCATTERED
      then [cameraDelta wrist] else []).

(** The refs after such a tick. *)
Definition processedWorld (now : Z) (fingersOpen : Z) (isPinching : bool)
    (wrist : Joint) (w : World) : World :=
  let cur := currentStateRef w in
  mkWorld (if commits cur fingersOpen isPinching then now else lastGestureTime w)
          (target cur fingersOpen isPinching)
          (calls w ++ processedCalls cur fingersOpen isPinching wrist).

(** The state the parent was last told through [onStateChange], starting
    from [s]. *)
Definition announcedFrom (s : TreeState) (cs : list Call) : TreeState :=
  fold_left (fun s c => match c with onStateChange s' => s' | _ => s end) cs s.

(** The parent initially assumes the state the ref starts with. *)
Definition announced (cs : list Call) : TreeState := announcedFrom TREE_SHAPE cs.

(** The grab flag the parent was last given through [onPhotoGrab], starting
    from [g]. *)
Definition grabbingFrom (g : bool) (cs : list Call) : bool :=
  fold_left (fun g c => match c with onPhotoGrab b => b | _ => g end) cs g.

Definition grabbing (cs : list Call) : bool := grabbingFrom false cs.

(** A tick that delivers a hand with every joint the step reads. *)
Definition delivers (t : Tick) : bool :=
  match snd t with
  | Some (landmarks :: _) => wellFormed landmarks
  | _ => false
  end.

(* ------------------------------------------------------------------ *)
(** ** The mount effect, lines 29-85 *)

(** The calls into the MediaPipe scripts, in program order:
    [new window.Hands], [hands.setOptions], [hands.onResults],
    [new window.Camera], [camera.start]. *)
Inductive ExternalCall : Type :=
  | NewHands
  | SetOptions
  | RegisterOnResults
  | NewCamera
  | CameraStart.

Inductive ConsoleLine : Type :=
  | ConsoleWarn    (* "MediaPipe scripts not loaded yet. Gestures disabled." *)
  | ConsoleError.  (* "Failed to initialize gesture control:" *)

(** What the effect finds: whether [window.Hands] and [window.Camera] are
    there, whether [videoRef.current] is set, and which external calls
    throw. *)
Record Browser : Type := mkBrowser {
  hasHands : bool;
  hasCamera : bool;
  videoMounted : bool;
  fails : ExternalCall -> bool
}.

(** What the effect leaves behind: whether [handsRef] and [cameraRef] were
    assigned, the [isReady] state, the external calls that returned, and the
    console. *)
Record Mount : Type := mkMount {
  handsRef : bool;
  cameraRef : bool;
  isReady : bool;
  returned : list ExternalCall;
  console : list ConsoleLine
}.

Definition unmounted : Mount := mkMount false false false [] [].

(** A computation inside the [try] block: [inr] carries the state at the
    point of the throw. *)
Definition Try : Type := Mount -> Mount + Mount.

Definition external (b : Browser) (c : ExternalCall) : Try :=
  fun m =>
    if fails b c then inr m
    else inl (mkMount (handsRef m) (cameraRef m) (isReady m) (returned m ++ [c]) (console m)).

Definition assignHandsRef : Try :=
  fun m => inl (mkMount true (cameraRef m) (isReady m) (returned m) (console m)).

Definition assignCameraRef : Try :=
  fun m => inl (mkMount (handsRef m) true (isReady m) (returned m) (console m)).

Definition setIsReady (v : bool) : Try :=
  fun m => inl (mkMount (handsRef m) (cameraRef m) v (returned m) (console m)).

Definition andThen (f g : Try) : Try :=
  fun m => match f m with inl m' => g m' | inr m' => inr m' end.

Definition consoleLog (l : ConsoleLine) (m : Mount) : Mount :=
  mkMount (handsRef m) (cameraRef m) (isReady m) (returned m) (console m ++ [l]).

(** Lines 38-74, the body of the [try]. *)
Definition tryBody (b : Browser) : Try :=
  andThen (external b NewHands)
  (andThen (external b SetOptions)
  (andThen (external b RegisterOnResults)
  (andThen assignHandsRef
  (andThen (external b NewCamera)
  (andThen (external b CameraStart)
  (andThen assignCameraRef
           (setIsReady true))))))).

(** Lines 29-78, the effect run once on mount. *)
Definition mountEffect (b : Browser) (m : Mount) : Mount :=
  if negb (hasHands b) || negb (hasCamera b) then consoleLog ConsoleWarn m
  else if negb (videoMounted b) then m
  else match tryBody b m with
       | inl m' => m'
       | inr m' => consoleLog ConsoleError m'
       end.

Create HintDb pure.

(* ------------------------------------------------------------------ *)
(** ** The classification block *)

Arguments index : simpl never.

Lemma Pure_ret {A : Type} (a : A) : Pure (ret a).
Proof. intro w. reflexivity. Qed.

Lemma Pure_throw {A : Type} (e : Error) : Pure (@throw A e).
Proof. intro w. reflexivity. Qed.

Lemma Pure_field {A : Type} (f : Joint -> A) (o : option Joint) : Pure (field f o).
Proof. destruct o; [apply Pure_ret | apply Pure_throw]. Qed.

Lemma Pure_bind {A B : Type} (m : M A) (k : A -> M B) :
  Pure m -> (forall a, Pure (k a)) -> Pure (bind m k).
Proof.
  intros Hm Hk w. unfold bind.
  rewrite (Hm w). pose proof (Hm initialWorld) as H0.
  destruct (m initialWorld) as [c w0]. simpl in H0.
  injection H0 as ->. simpl.
  destruct c as [a | e]; [apply Hk | reflexivity].
Qed.

Lemma Pure_forEachFrom {A C : Type} (body : A -> nat -> C -> M C) (l : list A) :
  (forall a i c, Pure (body a i c)) ->
  forall i acc, Pure (forEachFrom body l i acc).
Proof.
  intros Hbody. induction l as [| a l IH]; intros i acc; simpl.
  - apply Pure_ret.
  - apply Pure_bind; [apply Hbody | intro c; apply IH].
Qed.

#[local] Hint Resolve Pure_ret Pure_throw Pure_field : pure.

Ltac pure_steps :=
  repeat (apply Pure_bind; [auto with pure | intro]); auto with pure.

Lemma Pure_countFinger (landmarks : Landmarks) (wrist : option Joint)
    (tipIdx i : nat) (fingersOpen : Z) :
  Pure (countFinger landmarks wrist tipIdx i fingersOpen).
Proof. unfold countFinger. pure_steps. Qed.

Lemma Pure_classifyPose (landmarks : Landmarks) : Pure (classifyPose landmarks).
Proof.
  unfold classifyPose, forEach.
  apply Pure_bind.
  - apply Pure_forEachFrom. intros; apply Pure_countFinger.
  - intro fo. pure_steps.
Qed.

(** The block runs the same on every world and leaves it as it was. *)
Lemma classifyPose_pose (landmarks : Landmarks) (w : World) :
  classifyPose landmarks w = (pose landmarks, w).
Proof. apply (Pure_classifyPose landmarks w). Qed.

Lemma wellFormed_index (landmarks : Landmarks) (i : nat) :
  wellFormed landmarks = true -> In i expectedIndices ->
  index landmarks i = Some (jointAt landmarks i).
Proof.
  unfold wellFormed. rewrite forallb_forall. intros H Hi.
  specialize (H i Hi). unfold jointAt.
  destruct (index landmarks i); [reflexivity | discriminate].
Qed.

Lemma malformed_iff (landmarks : Landmarks) :
  malformed landmarks <-> wellFormed landmarks = false.
Proof.
  unfold malformed. split.
  - intros [Hlen | [i [Hi Hnone]]].
    + destruct (wellFormed landmarks) eqn:Hwf; [| reflexivity].
      assert (H20 : index landmarks 20 = Some (jointAt landmarks 20))
        by (apply wellFormed_index; [assumption | simpl; tauto]).
      unfold index in H20.
      destruct (nth_error landmarks 20) eqn:Hn; [| discriminate].
      assert (nth_error landmarks 20 <> None) by congruence.
      apply nth_error_Some in H. lia.
    + destruct (wellFormed landmarks) eqn:Hwf; [| reflexivity].
      rewrite (wellFormed_index _ _ Hwf Hi) in Hnone. discriminate.
  - intro Hwf. right. unfold wellFormed in Hwf.
    assert (Hex : existsb (fun i => negb (defined (index landmarks i))) expectedIndices = true).
    { rewrite <- negb_false_iff. rewrite <- Hwf. clear Hwf.
      induction expectedIndices as [| i l IH]; simpl; [reflexivity |].
      rewrite negb_orb, negb_involutive, IH. reflexivity. }
    apply existsb_exists in Hex. destruct Hex as [i [Hi Hd]].
    exists i. split; [assumption |].
    destruct (index landmarks i); [discriminate | reflexivity].
Qed.

(** On a well-formed frame the block computes the features of spec 4.1. *)
Lemma pose_wellFormed (landmarks : Landmarks) :
  wellFormed landmarks = true ->
  pose landmarks = Normal (fingersOpenSpec landmarks, isPinchingSpec landmarks).
Proof.
  intro Hwf.
  unfold pose, classifyPose, forEach, tips. simpl forEachFrom.
  unfold countFinger, knuckleOf, mcp. simpl nth_error.
  rewrite !(wellFormed_index landmarks _ Hwf) by (simpl; tauto).
  unfold fingersOpenSpec, isPinchingSpec, fingers, fingerOpen, distance.
  cbn -[index jointAt PrimFloat.ltb PrimFloat.sub PrimFloat.mul Z.add].
  repeat match goal with
         | |- context [if ?b then _ else _] => destruct b
         end; reflexivity.
Qed.

(** On a malformed frame a property of [undefined] is read. *)
Lemma pose_malformed (landmarks : Landmarks) :
  wellFormed landmarks = false -> pose landmarks = Throw TypeError.
Proof.
  intro Hwf.
  unfold pose, classifyPose, forEach, tips. simpl forEachFrom.
  unfold countFinger, knuckleOf, mcp. simpl nth_error.
  unfold wellFormed, expectedIndices in Hwf. simpl forallb in Hwf.
  repeat match goal with
         | |- context [index landmarks ?i] =>
             destruct (index landmarks i) eqn:?;
             cbn -[index PrimFloat.ltb PrimFloat.sub PrimFloat.mul Z.add];
             try reflexivity
         end.
  discriminate Hwf.
Qed.

Lemma pose_Normal_wellFormed (landmarks : Landmarks) (c : Z * bool) :
  pose landmarks = Normal c -> wellFormed landmarks = true.
Proof.
  intro H. destruct (wellFormed landmarks) eqn:Hwf; [reflexivity |].
  rewrite (pose_malformed _ Hwf) in H. discriminate.
Qed.

(* ------------------------------------------------------------------ *)
(** ** The step in closed form *)

Lemma TreeState_eqb_eq (a b : TreeState) : TreeState_eqb a b = true <-> a = b.
Proof. destruct a, b; simpl; split; intro H; congruence. Qed.

Lemma TreeState_eqb_neq (a b : TreeState) : TreeState_eqb a b = false <-> a <> b.
Proof. destruct a, b; simpl; split; intro H; congruence. Qed.

Lemma during_app {A : Type} (m : M A) (w : World) (l : list Call) :
  calls (snd (m w)) = calls w ++ l -> during m w = l.
Proof.
  intro H. unfold during. rewrite H.
  rewrite skipn_app, skipn_all, Nat.sub_diag. reflexivity.
Qed.

Lemma stateMachine_spec (now fingersOpen : Z) (isPinching : bool) (w : World) :
  let cur := currentStateRef w in
  stateMachine now fingersOpen isPinching w =
  (Normal tt,
   mkWorld (if commits cur fingersOpen isPinching then now else lastGestureTime w)
           (target cur fingersOpen isPinching)
           (calls w ++ grabOf (matchedRule cur fingersOpen isPinching)
                    ++ (if commits cur fingersOpen isPinching
                        then [onStateChange (target cur fingersOpen isPinching)]
                        else []))).
Proof.
  destruct w as [last cur cs].
  unfold stateMachine, commits, target, matchedRule, bind, readCurrentState,
    invoke, ret, writeCurrentState, writeLastGestureTime.
  destruct cur, isPinching, (4 <=? fingersOpen), (fingersOpen =? 0);
    simpl; rewrite ?app_nil_r, <- ?app_assoc; reflexivity.
Qed.

Lemma cameraControl_spec (wrist : Joint) (w : World) :
  cameraControl (Some wrist) w =
  (Normal tt,
   mkWorld (lastGestureTime w) (currentStateRef w)
           (calls w ++ (if TreeState_eqb (currentStateRef w) SCATTERED
                        then [cameraDelta wrist] else []))).
Proof.
  destruct w as [last cur cs].
  unfold cameraControl, bind, readCurrentState, field, ret, invoke, cameraDelta.
  destruct cur; simpl; rewrite ?app_nil_r; reflexivity.
Qed.

(** Line 90: a rate-limited call returns at once. *)
Lemma processGestures_rateLimited (now : Z) (landmarks : Landmarks) (w : World) :
  rateLimited now w = true -> processGestures now landmarks w = (Normal tt, w).
Proof.
  unfold rateLimited, processGestures, bind, readLastGestureTime.
  intro H. rewrite H. reflexivity.
Qed.

(** Past the rate limit, a frame with a missing joint makes the step throw
    before anything was called or written. *)
Lemma processGestures_throw (now : Z) (landmarks : Landmarks) (w : World) (e : Error) :
  rateLimited now w = false -> pose landmarks = Throw e ->
  processGestures now landmarks w = (Throw e, w).
Proof.
  unfold rateLimited, processGestures, bind at 1, readLastGestureTime.
  intros H Hp. rewrite H. unfold bind at 1.
  rewrite classifyPose_pose, Hp. reflexivity.
Qed.

(** Past the rate limit, a classified frame runs the state machine and the
    camera block. *)
Lemma processGestures_processed (now : Z) (landmarks : Landmarks) (w : World)
    (fingersOpen : Z) (isPinching : bool) :
  rateLimited now w = false -> pose landmarks = Normal (fingersOpen, isPinching) ->
  processGestures now landmarks w =
  (Normal tt, processedWorld now fingersOpen isPinching (jointAt landmarks 0) w).
Proof.
  intros H Hp.
  assert (Hw : index landmarks 0 = Some (jointAt landmarks 0)).
  { apply wellFormed_index; [| simpl; tauto].
    apply (pose_Normal_wellFormed _ _ Hp). }
  unfold rateLimited in H.
  unfold processGestures, bind at 1, readLastGestureTime.
  rewrite H. unfold bind at 1. rewrite classifyPose_pose, Hp.
  unfold bind at 1. cbv zeta in *. rewrite stateMachine_spec. simpl fst; simpl snd.
  rewrite Hw, cameraControl_spec. unfold processedWorld, processedCalls.
  cbn [lastGestureTime currentStateRef calls].
  rewrite <- !app_assoc. reflexivity.
Qed.

Lemma during_rateLimited (now : Z) (landmarks : Landmarks) (w : World) :
  rateLimited now w = true -> during (processGestures now landmarks) w = [].
Proof.
  intro H. apply during_app.
  rewrite (processGestures_rateLimited _ _ _ H). simpl. now rewrite app_nil_r.
Qed.

Lemma during_throw (now : Z) (landmarks : Landmarks) (w : World) (e : Error) :
  rateLimited now w = false -> pose landmarks = Throw e ->
  during (processGestures now landmarks) w = [].
Proof.
  intros H Hp. apply during_app.
  rewrite (processGestures_throw _ _ _ _ H Hp). simpl. now rewrite app_nil_r.
Qed.

Lemma during_processed (now : Z) (landmarks : Landmarks) (w : World)
    (fingersOpen : Z) (isPinching : bool) :
  rateLimited now w = false -> pose landmarks = Normal (fingersOpen, isPinching) ->
  during (processGestures now landmarks) w =
  processedCalls (currentStateRef w) fingersOpen isPinching (jointAt landmarks 0).
Proof.
  intros H Hp. apply during_app.
  rewrite (processGestures_processed _ _ _ _ _ H Hp). reflexivity.
Qed.

Lemma rateLimited_true (now : Z) (w : World) :
  rateLimited now w = true <-> now - lastGestureTime w < 500.
Proof. unfold rateLimited. apply Z.ltb_lt. Qed.

Lemma rateLimited_false (now : Z) (w : World) :
  rateLimited now w = false <-> 500 <= now - lastGestureTime w.
Proof. unfold rateLimited. apply Z.ltb_ge. Qed.

(** The three kinds of call in the closed form, one filter at a time. *)
Lemma processedCalls_photoGrab (cur : TreeState) (fo : Z) (p : bool) (wrist : Joint) :
  filter isPhotoGrab (processedCalls cur fo p wrist) = grabOf (matchedRule cur fo p).
Proof.
  unfold processedCalls.
  destruct (matchedRule cur fo p), (commits cur fo p),
    (TreeState_eqb (target cur fo p) SCATTERED); reflexivity.
Qed.

Lemma processedCalls_stateChange (cur : TreeState) (fo : Z) (p : bool) (wrist : Joint) :
  filter isStateChange (processedCalls cur fo p wrist) =
  if commits cur fo p then [onStateChange (target cur fo p)] else [].
Proof.
  unfold processedCalls.
  destruct (matchedRule cur fo p), (commits cur fo p),
    (TreeState_eqb (target cur fo p) SCATTERED); reflexivity.
Qed.

Lemma processedCalls_cameraMove (cur : TreeState) (fo : Z) (p : bool) (wrist : Joint) :
  filter isCameraMove (processedCalls cur fo p wrist) =
  if TreeState_eqb (target cur fo p) SCATTERED then [cameraDelta wrist] else [].
Proof.
  unfold processedCalls.
  destruct (matchedRule cur fo p), (commits cur fo p),
    (TreeState_eqb (target cur fo p) SCATTERED); reflexivity.
Qed.

Lemma In_stateChange_filter (s : TreeState) (l : list Call) :
  In (onStateChange s) l <-> In (onStateChange s) (filter isStateChange l).
Proof. rewrite filter_In. simpl. tauto. Qed.

Lemma commits_true (cur : TreeState) (fo : Z) (p : bool) :
  commits cur fo p = true <-> target cur fo p <> cur.
Proof.
  unfold commits. rewrite negb_true_iff. apply TreeState_eqb_neq.
Qed.

Lemma commits_false (cur : TreeState) (fo : Z) (p : bool) :
  commits cur fo p = false <-> target cur fo p = cur.
Proof.
  unfold commits. rewrite negb_false_iff. apply TreeState_eqb_eq.
Qed.

(** Only rule 1 requests PHOTO_VIEW. *)
Lemma target_PHOTO_VIEW (cur : TreeState) (fo : Z) (p : bool) :
  target cur fo p = PHOTO_VIEW -> cur <> PHOTO_VIEW ->
  cur = SCATTERED /\ p = true.
Proof.
  unfold target, matchedRule.
  destruct cur, p, (4 <=? fo), (fo =? 0); simpl; intros H Hn;
    try discriminate; try (split; reflexivity); congruence.
Qed.

(* ------------------------------------------------------------------ *)
(** ** The rate limit *)

(** C10: a call made less than 500 ms after the last committed transition
    (and not before it) returns before classifying: the result is a normal
    return, the two refs and the call log are what they were, and no
    callback of any kind was invoked; this holds for every frame, also one
    with missing joints. *)
Theorem rate_limit_returns_first (now : Z) (landmarks : Landmarks) (w : World) :
  0 <= now - lastGestureTime w < 500 ->
  processGestures now landmarks w = (Normal tt, w) /\
  during (processGestures now landmarks) w = [].
Proof.
  intros [_ H]. apply rateLimited_true in H. split.
  - apply processGestures_rateLimited, H.
  - apply during_rateLimited, H.
Qed.

(** C4, as the code has it: when the clock reads earlier than
    [lastGestureTime], the difference is negative, hence below 500, and the
    call is rate-limited like any other: it returns without classifying, no
    transition commits, no callback is invoked and the refs keep their
    values. *)
Theorem backward_clock_is_rate_limited (now : Z) (landmarks : Landmarks) (w : World) :
  now < lastGestureTime w ->
  processGestures now landmarks w = (Normal tt, w) /\
  during (processGestures now landmarks) w = [].
Proof.
  intro H.
  assert (Hr : rateLimited now w = true) by (apply rateLimited_true; lia).
  split.
  - apply processGestures_rateLimited, Hr.
  - apply during_rateLimited, Hr.
Qed.

(* ------------------------------------------------------------------ *)
(** ** Malformed frames *)

(** C3, as the code has it: on a malformed frame the step invokes no
    callback and leaves [currentStateRef] and [lastGestureTime] unchanged,
    but it does not behave like a tick without a hand: unless the call is
    rate-limited (and then returns at once), reading a property of the
    missing joint throws a TypeError. *)
Theorem malformed_frame_throws (now : Z) (landmarks : Landmarks) (w : World) :
  malformed landmarks ->
  processGestures now landmarks w =
    (if rateLimited now w then Normal tt else Throw TypeError, w) /\
  during (processGestures now landmarks) w = [].
Proof.
  intro Hm. apply malformed_iff in Hm. apply pose_malformed in Hm.
  destruct (rateLimited now w) eqn:Hr; split.
  - apply processGestures_rateLimited, Hr.
  - apply during_rateLimited, Hr.
  - apply processGestures_throw; assumption.
  - apply (during_throw _ _ _ _ Hr Hm).
Qed.

(* ------------------------------------------------------------------ *)
(** ** The transition rules *)

(** C9: a frame classified with one, two or three open fingers and no pinch
    matches no rule: the step returns normally, [currentStateRef] and
    [lastGestureTime] keep their values and no [onStateChange] is invoked. *)
Theorem ambiguous_pose_changes_nothing (now : Z) (landmarks : Landmarks) (w : World)
    (fingersOpen : Z) :
  pose landmarks = Normal (fingersOpen, false) ->
  1 <= fingersOpen <= 3 ->
  let w' := snd (processGestures now landmarks w) in
  matchedRule (currentStateRef w) fingersOpen false = NoRule /\
  fst (processGestures now landmarks w) = Normal tt /\
  currentStateRef w' = currentStateRef w /\
  lastGestureTime w' = lastGestureTime w /\
  filter isStateChange (during (processGestures now landmarks) w) = [].
Proof.
  intros Hp Hfo w'.
  assert (Hrule : matchedRule (currentStateRef w) fingersOpen false = NoRule).
  { unfold matchedRule. simpl.
    destruct (Z.leb_spec 4 fingersOpen); [lia |].
    destruct (Z.eqb_spec fingersOpen 0); [lia | reflexivity]. }
  assert (Htgt : target (currentStateRef w) fingersOpen false = currentStateRef w).
  { unfold target. rewrite Hrule. reflexivity. }
  assert (Hc : commits (currentStateRef w) fingersOpen false = false)
    by (apply commits_false, Htgt).
  split; [exact Hrule |].
  subst w'. destruct (rateLimited now w) eqn:Hr.
  - rewrite (during_rateLimited _ _ _ Hr), (processGestures_rateLimited _ _ _ Hr).
    repeat split.
  - rewrite (during_processed _ _ _ _ _ Hr Hp), (processGestures_processed _ _ _ _ _ Hr Hp).
    rewrite processedCalls_stateChange. unfold processedWorld. simpl.
    rewrite Hc, Htgt. repeat split.
Qed.

(** C5: for a classified frame, the requested state is committed (one
    [onStateChange] for it, [currentStateRef] and [lastGestureTime] written)
    exactly when it differs from the current state and at least 500 ms have
    passed since [lastGestureTime]; otherwise no [onStateChange] is invoked
    and both refs keep their values.  After a commit at [now], every call
    arriving less than 500 ms later, whatever its frame, returns with nothing
    committed and nothing invoked. *)
Theorem commit_iff_new_target_and_window (now : Z) (landmarks : Landmarks) (w : World)
    (fingersOpen : Z) (isPinching : bool) :
  pose landmarks = Normal (fingersOpen, isPinching) ->
  let cur := currentStateRef w in
  let tgt := target cur fingersOpen isPinching in
  let w' := snd (processGestures now landmarks w) in
  let emitted := during (processGestures now landmarks) w in
  (In (onStateChange tgt) emitted <-> tgt <> cur /\ 500 <= now - lastGestureTime w) /\
  (tgt <> cur /\ 500 <= now - lastGestureTime w ->
     filter isStateChange emitted = [onStateChange tgt] /\
     currentStateRef w' = tgt /\ lastGestureTime w' = now /\
     forall now' landmarks', now' - now < 500 ->
       processGestures now' landmarks' w' = (Normal tt, w')) /\
  (~ (tgt <> cur /\ 500 <= now - lastGestureTime w) ->
     filter isStateChange emitted = [] /\
     currentStateRef w' = cur /\ lastGestureTime w' = lastGestureTime w).
Proof.
  intros Hp cur tgt w' emitted.
  assert (Hcases :
    (rateLimited now w = true /\ emitted = [] /\ w' = w) \/
    (rateLimited now w = false /\
     filter isStateChange emitted =
       (if commits cur fingersOpen isPinching then [onStateChange tgt] else []) /\
     currentStateRef w' = tgt /\
     lastGestureTime w' =
       if commits cur fingersOpen isPinching then now else lastGestureTime w)).
  { subst emitted w'. destruct (rateLimited now w) eqn:Hr; [left | right].
    - rewrite (during_rateLimited _ _ _ Hr), (processGestures_rateLimited _ _ _ Hr).
      repeat split.
    - rewrite (during_processed _ _ _ _ _ Hr Hp), (processGestures_processed _ _ _ _ _ Hr Hp).
      rewrite processedCalls_stateChange. repeat split. }
  destruct Hcases as [[Hr [He Hw]] | [Hr [He [Hcur Hlast]]]].
  - apply rateLimited_true in Hr. rewrite He, Hw. simpl.
    split; [| split].
    + split; [tauto | intros [_ H]; lia].
    + intros [_ H]; lia.
    + intros _. repeat split.
  - apply rateLimited_false in Hr.
    rewrite In_stateChange_filter, He, Hcur, Hlast.
    destruct (commits cur fingersOpen isPinching) eqn:Hc.
    + apply commits_true in Hc. fold tgt in Hc.
      split; [| split].
      * simpl. tauto.
      * intros _. repeat split.
        intros now' landmarks' Hlt. apply processGestures_rateLimited.
        apply rateLimited_true. rewrite Hlast. exact Hlt.
      * intros Hn. tauto.
    + apply commits_false in Hc. fold tgt in Hc.
      split; [| split].
      * simpl. split; [tauto | intros [Hd _]; congruence].
      * intros [Hd _]; congruence.
      * intros _. repeat split. exact Hc.
Qed.

(** The world after a tick, case by case. *)
Lemma tick_cases (t : Tick) (w : World) :
  (tick t w = w /\ during (onResults (fst t) (snd t)) w = []) \/
  (exists fo p wrist,
     tickPose t = Some (fo, p) /\
     tick t w = processedWorld (fst t) fo p wrist w /\
     during (onResults (fst t) (snd t)) w = processedCalls (currentStateRef w) fo p wrist).
Proof.
  destruct t as [now [[| landmarks others] |]]; unfold tick, tickPose; simpl.
  - left. split; [reflexivity |]. apply during_app. simpl. now rewrite app_nil_r.
  - destruct (rateLimited now w) eqn:Hr.
    + left. rewrite (processGestures_rateLimited _ _ _ Hr).
      split; [reflexivity | apply during_rateLimited, Hr].
    + destruct (pose landmarks) as [[fo p] | e] eqn:Hp.
      * right. exists fo, p, (jointAt landmarks 0).
        rewrite (processGestures_processed _ _ _ _ _ Hr Hp).
        split; [reflexivity |]. split; [reflexivity |].
        apply (during_processed _ _ _ _ _ Hr Hp).
      * left. rewrite (processGestures_throw _ _ _ _ Hr Hp).
        split; [reflexivity | apply (during_throw _ _ _ _ Hr Hp)].
  - left. split; [reflexivity |]. apply during_app. simpl. now rewrite app_nil_r.
Qed.

(** Entering PHOTO_VIEW, from any world. *)
Lemma enters_PHOTO_VIEW (t : Tick) (w : World) :
  (currentStateRef (tick t w) = PHOTO_VIEW /\ currentStateRef w <> PHOTO_VIEW) \/
  In (onStateChange PHOTO_VIEW) (during (onResults (fst t) (snd t)) w) ->
  currentStateRef w = SCATTERED /\ tickPinching t = true.
Proof.
  intro H. unfold tickPinching.
  destruct (tick_cases t w) as [[Hw Hd] | [fo [p [wrist [Hp [Hw Hd]]]]]].
  - rewrite Hw, Hd in H. destruct H as [[H1 H2] | []]. congruence.
  - rewrite Hw, Hd, Hp in *. unfold processedWorld in H. simpl in H.
    assert (Ht : target (currentStateRef w) fo p = PHOTO_VIEW /\
                 currentStateRef w <> PHOTO_VIEW).
    { destruct H as [H | H]; [exact H |].
      apply In_stateChange_filter in H. rewrite processedCalls_stateChange in H.
      destruct (commits (currentStateRef w) fo p) eqn:Hc; [| destruct H].
      apply commits_true in Hc. destruct H as [H | []].
      injection H as H. split; congruence. }
    destruct Ht as [Ht Hn]. apply (target_PHOTO_VIEW _ _ _ Ht Hn).
Qed.

(** C6: along every sequence of ticks from the initial state, a tick that
    takes the machine into PHOTO_VIEW, or that announces PHOTO_VIEW through
    [onStateChange], starts in SCATTERED with a pinch classified on it; so a
    pinch seen in TREE_SHAPE or in PHOTO_VIEW causes no transition to
    PHOTO_VIEW. *)
Theorem PHOTO_VIEW_only_from_SCATTERED_pinch (pre : list Tick) (t : Tick) :
  let w := run initialWorld pre in
  (currentStateRef (tick t w) = PHOTO_VIEW /\ currentStateRef w <> PHOTO_VIEW) \/
  In (onStateChange PHOTO_VIEW) (during (onResults (fst t) (snd t)) w) ->
  currentStateRef w = SCATTERED /\ tickPinching t = true.
Proof. intros w. apply enters_PHOTO_VIEW. Qed.

(** Reaching PHOTO_VIEW from the initial state takes a pinch tick in
    SCATTERED somewhere along the way. *)
Lemma PHOTO_VIEW_needs_pinch_tick (ticks : list Tick) :
  currentStateRef (run initialWorld ticks) = PHOTO_VIEW ->
  exists pre t post,
    ticks = pre ++ t :: post /\
    currentStateRef (run initialWorld pre) = SCATTERED /\
    tickPinching t = true /\
    currentStateRef (run initialWorld (pre ++ [t])) = PHOTO_VIEW.
Proof.
  induction ticks as [| t ticks IH] using rev_ind; intro H.
  - discriminate H.
  - unfold run in H. rewrite fold_left_app in H. simpl in H.
    fold (run initialWorld ticks) in H.
    destruct (currentStateRef (run initialWorld ticks)) eqn:Hprev.
    + exfalso.
      destruct (enters_PHOTO_VIEW t (run initialWorld ticks)) as [Hs _];
        [left; split; [exact H | congruence] | congruence].
    + destruct (enters_PHOTO_VIEW t (run initialWorld ticks)) as [_ Hpinch];
        [left; split; [exact H | congruence] |].
      exists ticks, t, []. repeat split; try assumption.
      unfold run. rewrite fold_left_app. exact H.
    + destruct (IH eq_refl) as [pre [t0 [post [Heq [Hs [Hpinch Hpv]]]]]].
      exists pre, t0, (post ++ [t]). repeat split; try assumption.
      rewrite Heq, <- app_assoc. reflexivity.
Qed.

(* ------------------------------------------------------------------ *)
(** ** photoGrab and camera callbacks *)

(** C1, as the code has it: on a classified frame that gets past the rate
    limit, [onPhotoGrab(true)] is invoked when rule 1 matches and
    [onPhotoGrab(false)] when rule 2 or rule 3 matches, whether or not the
    requested state equals the current one, and there is no [onPhotoGrab]
    when no rule matches; a call inside the 500 ms window returns before
    classification and invokes no [onPhotoGrab] at all. *)
Theorem photoGrab_follows_rule_past_rate_limit (now : Z) (landmarks : Landmarks)
    (w : World) (fingersOpen : Z) (isPinching : bool) :
  pose landmarks = Normal (fingersOpen, isPinching) ->
  filter isPhotoGrab (during (processGestures now landmarks) w) =
    if rateLimited now w then []
    else match matchedRule (currentStateRef w) fingersOpen isPinching with
         | Rule1 => [onPhotoGrab true]
         | Rule2 | Rule3 => [onPhotoGrab false]
         | NoRule => []
         end.
Proof.
  intro Hp. destruct (rateLimited now w) eqn:Hr.
  - rewrite (during_rateLimited _ _ _ Hr). reflexivity.
  - rewrite (during_processed _ _ _ _ _ Hr Hp), processedCalls_photoGrab.
    destruct (matchedRule (currentStateRef w) fingersOpen isPinching); reflexivity.
Qed.

(** C2, as the code has it: on a tick that delivers a classified hand frame
    while [currentStateRef] is SCATTERED, [onCameraMove] is invoked (once,
    with the delta of the wrist) exactly when the call is not rate-limited
    and the state is still SCATTERED after the commit; inside the 500 ms
    window after a committed transition, and on a tick that commits a
    transition out of SCATTERED, it is not invoked. *)
Theorem cameraMove_while_SCATTERED (now : Z) (landmarks : Landmarks)
    (others : list Landmarks) (w : World) (fingersOpen : Z) (isPinching : bool) :
  pose landmarks = Normal (fingersOpen, isPinching) ->
  currentStateRef w = SCATTERED ->
  filter isCameraMove (during (onResults now (Some (landmarks :: others))) w) =
    if rateLimited now w then []
    else if TreeState_eqb (target SCATTERED fingersOpen isPinching) SCATTERED
         then [onCameraMove ((0.5 - x (jointAt landmarks 0)) * 4)
                            ((0.5 - y (jointAt landmarks 0)) * 2)]
         else [].
Proof.
  intros Hp Hs. simpl onResults. destruct (rateLimited now w) eqn:Hr.
  - rewrite (during_rateLimited _ _ _ Hr). reflexivity.
  - rewrite (during_processed _ _ _ _ _ Hr Hp), processedCalls_cameraMove, Hs.
    reflexivity.
Qed.

(** C8: the camera block reads only the wrist and the current state and
    writes no ref: outside SCATTERED it invokes nothing, in SCATTERED it
    invokes [onCameraMove((0.5 - wrist.x) * 4, (0.5 - wrist.y) * 2)] once;
    a wrist at (0.25, 0.5) in SCATTERED gives [onCameraMove(1, 0)].  Within
    the step, the [onCameraMove] calls of a tick are those of this block run
    on the state the tick ends in. *)
Theorem cameraControl_delta (wrist : Joint) (w : World) (now : Z) (landmarks : Landmarks) :
  (cameraControl (Some wrist) w =
     (Normal tt,
      mkWorld (lastGestureTime w) (currentStateRef w)
        (calls w ++
           match currentStateRef w with
           | SCATTERED => [onCameraMove ((0.5 - x wrist) * 4) ((0.5 - y wrist) * 2)]
           | TREE_SHAPE | PHOTO_VIEW => []
           end))) /\
  during (cameraControl (Some (mkJoint 0.25 0.5)))
         (mkWorld (lastGestureTime w) SCATTERED (calls w)) = [onCameraMove 1 0] /\
  filter isCameraMove (during (processGestures now landmarks) w) =
    if rateLimited now w then []
    else match pose landmarks, currentStateRef (snd (processGestures now landmarks w)) with
         | Normal _, SCATTERED =>
             [onCameraMove ((0.5 - x (jointAt landmarks 0)) * 4)
                           ((0.5 - y (jointAt landmarks 0)) * 2)]
         | _, _ => []
         end.
Proof.
  split; [| split].
  - rewrite cameraControl_spec. unfold cameraDelta.
    destruct (currentStateRef w); reflexivity.
  - apply during_app. rewrite cameraControl_spec. reflexivity.
  - destruct (rateLimited now w) eqn:Hr.
    + rewrite (during_rateLimited _ _ _ Hr). reflexivity.
    + destruct (pose landmarks) as [[fo p] | e] eqn:Hp.
      * rewrite (during_processed _ _ _ _ _ Hr Hp), processedCalls_cameraMove,
          (processGestures_processed _ _ _ _ _ Hr Hp).
        unfold processedWorld, cameraDelta. simpl.
        destruct (target (currentStateRef w) fo p); reflexivity.
      * rewrite (during_throw _ _ _ _ Hr Hp). reflexivity.
Qed.

(* ------------------------------------------------------------------ *)
(** ** The pose classifier *)

Lemma fingersOpenSpec_range (landmarks : Landmarks) :
  0 <= fingersOpenSpec landmarks <= 4.
Proof.
  unfold fingersOpenSpec.
  pose proof (filter_length_le (fingerOpen landmarks) fingers) as H.
  simpl length in H at 2. lia.
Qed.

Lemma jointAt_ext (l1 l2 : Landmarks) (i : nat) :
  index l1 i = index l2 i -> jointAt l1 i = jointAt l2 i.
Proof. unfold jointAt. intros ->. reflexivity. Qed.

(** C7: on a frame holding the joints the step reads, the classification
    block returns, on every world and leaving that world untouched,
    [fingersOpen] = the number of fingers among index, middle, ring and pinky
    whose wrist-to-tip distance exceeds 1.2 times the wrist-to-knuckle
    distance, and [isPinching] = (distance(thumb tip, index tip) < 0.05),
    distances being those [Math.hypot] computes.  The count lies in 0..4 and
    does not depend on the thumb joints (indices 1 to 4). *)
Theorem classifier_counts_four_fingers (landmarks : Landmarks) :
  wellFormed landmarks = true ->
  (forall w, classifyPose landmarks w =
     (Normal (fingersOpenSpec landmarks, isPinchingSpec landmarks), w)) /\
  0 <= fingersOpenSpec landmarks <= 4 /\
  (isPinchingSpec landmarks = true <->
   PrimFloat.ltb
     (hypot (x (jointAt landmarks 4) - x (jointAt landmarks 8))
            (y (jointAt landmarks 4) - y (jointAt landmarks 8))) 0.05 = true) /\
  (forall landmarks',
     (forall i, (i < 1 \/ 4 < i)%nat -> index landmarks' i = index landmarks i) ->
     fingersOpenSpec landmarks' = fingersOpenSpec landmarks).
Proof.
  intro Hwf. split; [| split; [| split]].
  - intro w. rewrite classifyPose_pose, (pose_wellFormed _ Hwf). reflexivity.
  - apply fingersOpenSpec_range.
  - reflexivity.
  - intros landmarks' Hagree.
    unfold fingersOpenSpec, fingers, fingerOpen. cbn [filter fst snd].
    rewrite !(jointAt_ext landmarks' landmarks) by (apply Hagree; lia).
    reflexivity.
Qed.

(* ------------------------------------------------------------------ *)
(** ** Exceptions and the joints read *)

(** The step throws exactly when the call is past the rate limit and the
    frame lacks a joint the step reads; a frame holding the ten joints never
    makes it throw, and a throw leaves refs and call log as they were. *)
Theorem step_throws_iff_processed_malformed (now : Z) (landmarks : Landmarks) (w : World) :
  (fst (processGestures now landmarks w) = Throw TypeError <->
   500 <= now - lastGestureTime w /\ wellFormed landmarks = false) /\
  (forall e, fst (processGestures now landmarks w) = Throw e ->
             snd (processGestures now landmarks w) = w).
Proof.
  destruct (rateLimited now w) eqn:Hr.
  - rewrite (processGestures_rateLimited _ _ _ Hr). apply rateLimited_true in Hr.
    simpl. split; [split; [discriminate | lia] | discriminate].
  - destruct (wellFormed landmarks) eqn:Hwf.
    + rewrite (processGestures_processed _ _ _ _ _ Hr (pose_wellFormed _ Hwf)).
      simpl. split; [split; [discriminate | intros [_ H]; discriminate] | discriminate].
    + rewrite (processGestures_throw _ _ _ _ Hr (pose_malformed _ Hwf)).
      apply rateLimited_false in Hr. simpl. split; [tauto | reflexivity].
Qed.

(** The step reads the frame at the ten expected indices only: two frames
    that agree there, whatever their other slots and their lengths, give the
    same result, refs and calls. *)
Theorem step_reads_expected_joints_only (now : Z) (landmarks landmarks' : Landmarks)
    (w : World) :
  (forall i, In i expectedIndices -> index landmarks' i = index landmarks i) ->
  processGestures now landmarks' w = processGestures now landmarks w.
Proof.
  intro H.
  unfold processGestures, classifyPose, forEach, tips. simpl forEachFrom.
  unfold countFinger, knuckleOf, mcp. simpl nth_error.
  rewrite !(H 0%nat), !(H 4%nat), !(H 5%nat), !(H 8%nat), !(H 9%nat),
    !(H 12%nat), !(H 13%nat), !(H 16%nat), !(H 17%nat), !(H 20%nat)
    by (simpl; tauto).
  reflexivity.
Qed.

(* ------------------------------------------------------------------ *)
(** ** The callbacks of one call *)

(** One call of the step invokes each callback prop at most once, and in the
    order [onPhotoGrab], [onStateChange], [onCameraMove]. *)
Theorem callbacks_once_and_in_order (now : Z) (landmarks : Landmarks) (w : World) :
  let d := during (processGestures now landmarks) w in
  d = filter isPhotoGrab d ++ filter isStateChange d ++ filter isCameraMove d /\
  (length (filter isPhotoGrab d) <= 1)%nat /\
  (length (filter isStateChange d) <= 1)%nat /\
  (length (filter isCameraMove d) <= 1)%nat.
Proof.
  intro d. subst d. destruct (rateLimited now w) eqn:Hr.
  - rewrite (during_rateLimited _ _ _ Hr). simpl. repeat split; lia.
  - destruct (pose landmarks) as [[fo p] | e] eqn:Hp.
    + rewrite (during_processed _ _ _ _ _ Hr Hp). unfold processedCalls.
      destruct (matchedRule (currentStateRef w) fo p),
        (commits (currentStateRef w) fo p),
        (TreeState_eqb (target (currentStateRef w) fo p) SCATTERED);
        simpl; repeat split; lia.
    + rewrite (during_throw _ _ _ _ Hr Hp). simpl. repeat split; lia.
Qed.

(** When the step invokes [onStateChange(s)], it has invoked [onPhotoGrab]
    just before, with [true] exactly for [s] = PHOTO_VIEW; [s] differs from
    the state before the call, [currentStateRef] holds [s] afterwards and
    [lastGestureTime] holds the time of the call. *)
Theorem stateChange_comes_with_photoGrab (now : Z) (landmarks : Landmarks) (w : World)
    (s : TreeState) :
  In (onStateChange s) (during (processGestures now landmarks) w) ->
  In (onPhotoGrab (TreeState_eqb s PHOTO_VIEW)) (during (processGestures now landmarks) w) /\
  s <> currentStateRef w /\
  currentStateRef (snd (processGestures now landmarks w)) = s /\
  lastGestureTime (snd (processGestures now landmarks w)) = now.
Proof.
  destruct (rateLimited now w) eqn:Hr.
  - rewrite (during_rateLimited _ _ _ Hr). intros [].
  - destruct (pose landmarks) as [[fo p] | e] eqn:Hp.
    + rewrite (during_processed _ _ _ _ _ Hr Hp),
        (processGestures_processed _ _ _ _ _ Hr Hp).
      intro Hin. pose proof Hin as Hf.
      apply In_stateChange_filter in Hf. rewrite processedCalls_stateChange in Hf.
      destruct (commits (currentStateRef w) fo p) eqn:Hc; [| destruct Hf].
      destruct Hf as [Hf | []]. injection Hf as Hs.
      pose proof (proj1 (commits_true _ _ _) Hc) as Hne.
      assert (Hgrab : In (onPhotoGrab (TreeState_eqb s PHOTO_VIEW))
                         (grabOf (matchedRule (currentStateRef w) fo p))).
      { revert Hs Hne. unfold target.
        destruct (matchedRule (currentStateRef w) fo p); intros <- Hne;
          simpl; try (left; reflexivity). congruence. }
      unfold processedWorld. simpl. rewrite Hc.
      split; [unfold processedCalls; apply in_or_app; left; exact Hgrab |].
      repeat split; congruence.
    + rewrite (during_throw _ _ _ _ Hr Hp). intros [].
Qed.

(* ------------------------------------------------------------------ *)
(** ** Runs of ticks *)

Lemma run_cons (w : World) (t : Tick) (ticks : list Tick) :
  run w (t :: ticks) = run (tick t w) ticks.
Proof. reflexivity. Qed.

Lemma run_snoc (w : World) (ticks : list Tick) (t : Tick) :
  run w (ticks ++ [t]) = tick t (run w ticks).
Proof. unfold run. rewrite fold_left_app. reflexivity. Qed.

(** A tick either leaves the world as it was, or is past the rate limit with
    a classified frame. *)
Lemma tick_effect (t : Tick) (w : World) :
  tick t w = w \/
  exists fo p wrist,
    rateLimited (fst t) w = false /\
    tickPose t = Some (fo, p) /\
    tick t w = processedWorld (fst t) fo p wrist w.
Proof.
  destruct t as [now [[| landmarks others] |]]; unfold tick, tickPose; simpl.
  - left. reflexivity.
  - destruct (rateLimited now w) eqn:Hr.
    + left. rewrite (processGestures_rateLimited _ _ _ Hr). reflexivity.
    + destruct (pose landmarks) as [[fo p] | e] eqn:Hp.
      * right. exists fo, p, (jointAt landmarks 0).
        rewrite (processGestures_processed _ _ _ _ _ Hr Hp). repeat split.
      * left. rewrite (processGestures_throw _ _ _ _ Hr Hp). reflexivity.
  - left. reflexivity.
Qed.

Lemma tick_not_delivering (t : Tick) (w : World) :
  delivers t = false -> tick t w = w.
Proof.
  destruct t as [now [[| landmarks others] |]]; unfold tick, delivers; simpl;
    try reflexivity.
  intro Hwf. destruct (rateLimited now w) eqn:Hr.
  - rewrite (processGestures_rateLimited _ _ _ Hr). reflexivity.
  - rewrite (processGestures_throw _ _ _ _ Hr (pose_malformed _ Hwf)). reflexivity.
Qed.

Lemma announced_app (a b : list Call) :
  announced (a ++ b) = announcedFrom (announced a) b.
Proof. unfold announced, announcedFrom. apply fold_left_app. Qed.

Lemma grabbing_app (a b : list Call) :
  grabbing (a ++ b) = grabbingFrom (grabbing a) b.
Proof. unfold grabbing, grabbingFrom. apply fold_left_app. Qed.

Lemma announcedFrom_processedCalls (cur : TreeState) (fo : Z) (p : bool) (wrist : Joint) :
  announcedFrom cur (processedCalls cur fo p wrist) = target cur fo p.
Proof.
  unfold processedCalls.
  destruct (commits cur fo p) eqn:Hc.
  - destruct (matchedRule cur fo p),
      (TreeState_eqb (target cur fo p) SCATTERED); reflexivity.
  - apply commits_false in Hc. rewrite Hc.
    destruct (matchedRule cur fo p), (TreeState_eqb cur SCATTERED); reflexivity.
Qed.

Lemma grabbingFrom_processedCalls (g : bool) (cur : TreeState) (fo : Z) (p : bool)
    (wrist : Joint) :
  grabbingFrom g (processedCalls cur fo p wrist) =
  match matchedRule cur fo p with
  | Rule1 => true
  | Rule2 | Rule3 => false
  | NoRule => g
  end.
Proof.
  unfold processedCalls.
  destruct (matchedRule cur fo p), (commits cur fo p),
    (TreeState_eqb (target cur fo p) SCATTERED); reflexivity.
Qed.

(** Along every run from the initial component, the state the parent was
    last given through [onStateChange] (TREE_SHAPE before the first call) is
    the state [currentStateRef] holds: ref and parent never drift apart, not
    even across ticks that throw. *)
Theorem announced_state_in_sync (ticks : list Tick) :
  announced (calls (run initialWorld ticks)) = currentStateRef (run initialWorld ticks).
Proof.
  induction ticks as [| t ticks IH] using rev_ind; [reflexivity |].
  rewrite run_snoc.
  destruct (tick_effect t (run initialWorld ticks))
    as [Hw | [fo [p [wrist [_ [_ Hw]]]]]]; rewrite Hw; [exact IH |].
  unfold processedWorld. cbn [calls currentStateRef].
  rewrite announced_app, IH. apply announcedFrom_processedCalls.
Qed.

(** Along every run from the initial component, the flag the parent was last
    given through [onPhotoGrab] (false before the first call) is true exactly
    while the machine is in PHOTO_VIEW. *)
Theorem grabbing_iff_PHOTO_VIEW (ticks : list Tick) :
  grabbing (calls (run initialWorld ticks)) =
  TreeState_eqb (currentStateRef (run initialWorld ticks)) PHOTO_VIEW.
Proof.
  induction ticks as [| t ticks IH] using rev_ind; [reflexivity |].
  rewrite run_snoc.
  destruct (tick_effect t (run initialWorld ticks))
    as [Hw | [fo [p [wrist [_ [_ Hw]]]]]]; rewrite Hw; [exact IH |].
  unfold processedWorld. cbn [calls currentStateRef].
  rewrite grabbing_app, IH, grabbingFrom_processedCalls. unfold target.
  destruct (matchedRule (currentStateRef (run initialWorld ticks)) fo p); reflexivity.
Qed.

Lemma tick_lastGestureTime (t : Tick) (w : World) :
  (lastGestureTime (tick t w) = lastGestureTime w /\
   filter isStateChange (calls (tick t w)) = filter isStateChange (calls w)) \/
  (lastGestureTime w + 500 <= lastGestureTime (tick t w) /\
   exists s, filter isStateChange (calls (tick t w)) =
             filter isStateChange (calls w) ++ [onStateChange s]).
Proof.
  destruct (tick_effect t w) as [Hw | [fo [p [wrist [Hr [_ Hw]]]]]]; rewrite Hw.
  - left. split; reflexivity.
  - apply rateLimited_false in Hr. unfold processedWorld. cbn [calls lastGestureTime].
    rewrite filter_app, processedCalls_stateChange.
    destruct (commits (currentStateRef w) fo p).
    + right. split; [lia | eexists; reflexivity].
    + left. rewrite app_nil_r. split; reflexivity.
Qed.

(** [lastGestureTime] never decreases along a run, whatever the clock
    readings of the ticks are, backward jumps included. *)
Theorem lastGestureTime_never_decreases (w : World) (ticks : list Tick) :
  lastGestureTime w <= lastGestureTime (run w ticks).
Proof.
  revert w. induction ticks as [| t ticks IH]; intro w; [simpl; lia |].
  rewrite run_cons. specialize (IH (tick t w)).
  destruct (tick_lastGestureTime t w) as [[H _] | [H _]]; lia.
Qed.

(** Along every run from the initial component, committed transitions are
    at least 500 ms apart: 500 times the number of [onStateChange] calls made
    so far is at most [lastGestureTime]. *)
Theorem stateChanges_rate_bound (ticks : list Tick) :
  500 * Z.of_nat (length (filter isStateChange (calls (run initialWorld ticks))))
  <= lastGestureTime (run initialWorld ticks).
Proof.
  induction ticks as [| t ticks IH] using rev_ind; [simpl; lia |].
  rewrite run_snoc.
  destruct (tick_lastGestureTime t (run initialWorld ticks))
    as [[Hl Hc] | [Hl [s Hc]]]; rewrite Hc.
  - lia.
  - rewrite length_app. simpl length. lia.
Qed.

(** While every tick reads a clock less than 500 ms past [lastGestureTime],
    nothing at all happens: the whole run leaves refs and call log as they
    were, with any frames. *)
Theorem run_frozen_inside_window (w : World) (ticks : list Tick) :
  (forall t, In t ticks -> fst t - lastGestureTime w < 500) ->
  run w ticks = w.
Proof.
  induction ticks as [| t ticks IH]; intro H; [reflexivity |].
  rewrite run_cons.
  assert (Ht : tick t w = w).
  { destruct (tick_effect t w) as [Hw | [fo [p [wrist [Hr _]]]]]; [exact Hw |].
    apply rateLimited_false in Hr. specialize (H t (or_introl eq_refl)). lia. }
  rewrite Ht. apply IH. intros t' Hin. apply H. right. exact Hin.
Qed.

(** Ticks that deliver no hand, or a hand lacking a joint the step reads,
    can be dropped from a run at any position without changing its outcome. *)
Theorem run_skips_ticks_without_usable_hand (w : World) (ticks : list Tick) :
  run w (filter delivers ticks) = run w ticks.
Proof.
  revert w. induction ticks as [| t ticks IH]; intro w; [reflexivity |].
  simpl filter. destruct (delivers t) eqn:Hd.
  - rewrite !run_cons. apply IH.
  - rewrite run_cons, (tick_not_delivering _ _ Hd). apply IH.
Qed.

(* ------------------------------------------------------------------ *)
(** ** Held poses *)

Lemma target_idempotent (cur : TreeState) (fo : Z) (p : bool) :
  p = false \/ fo < 4 ->
  target (target cur fo p) fo p = target cur fo p.
Proof.
  intro H. unfold target, matchedRule.
  destruct (Z.leb_spec 4 fo), (Z.eqb_spec fo 0), cur, p; simpl;
    try reflexivity; destruct H; try discriminate; lia.
Qed.

(** A pose held after a processed tick, other than a pinch with four open
    fingers, asks for the state the machine is already in: a later call with
    the same frame, at any time, commits nothing. *)
Theorem held_pose_is_stable (now now' : Z) (landmarks : Landmarks) (w : World)
    (fingersOpen : Z) (isPinching : bool) :
  pose landmarks = Normal (fingersOpen, isPinching) ->
  500 <= now - lastGestureTime w ->
  isPinching = false \/ fingersOpen < 4 ->
  let w1 := snd (processGestures now landmarks w) in
  let w2 := snd (processGestures now' landmarks w1) in
  currentStateRef w2 = currentStateRef w1 /\
  lastGestureTime w2 = lastGestureTime w1 /\
  filter isStateChange (during (processGestures now' landmarks) w1) = [].
Proof.
  intros Hp Hwin Hpose w1 w2. subst w2 w1.
  apply rateLimited_false in Hwin.
  rewrite (processGestures_processed _ _ _ _ _ Hwin Hp).
  cbn [snd].
  set (w1 := processedWorld now fingersOpen isPinching (jointAt landmarks 0) w).
  assert (Hcur : currentStateRef w1 = target (currentStateRef w) fingersOpen isPinching)
    by reflexivity.
  assert (Hc : commits (currentStateRef w1) fingersOpen isPinching = false).
  { apply commits_false. rewrite Hcur. apply target_idempotent, Hpose. }
  destruct (rateLimited now' w1) eqn:Hr.
  - rewrite (during_rateLimited _ _ _ Hr), (processGestures_rateLimited _ _ _ Hr).
    repeat split.
  - rewrite (during_processed _ _ _ _ _ Hr Hp), (processGestures_processed _ _ _ _ _ Hr Hp).
    rewrite processedCalls_stateChange, Hc.
    unfold processedWorld at 1 2. cbn [currentStateRef lastGestureTime snd].
    rewrite Hc. apply commits_false in Hc. rewrite Hc. repeat split.
Qed.

(** A pinch with four open fingers never asks for the current state: a call
    past the rate limit takes SCATTERED to PHOTO_VIEW (rule 1) and the two
    other states to SCATTERED (rule 2), so a frame held in that pose makes
    the machine alternate between SCATTERED and PHOTO_VIEW, one commit per
    call that is at least 500 ms after the previous one. *)
Theorem pinch_with_open_hand_toggles (now now' : Z) (landmarks : Landmarks) (w : World)
    (fingersOpen : Z) :
  pose landmarks = Normal (fingersOpen, true) ->
  4 <= fingersOpen ->
  500 <= now - lastGestureTime w ->
  500 <= now' - now ->
  let w1 := snd (processGestures now landmarks w) in
  let w2 := snd (processGestures now' landmarks w1) in
  currentStateRef w1 =
    match currentStateRef w with SCATTERED => PHOTO_VIEW | _ => SCATTERED end /\
  currentStateRef w2 =
    match currentStateRef w with SCATTERED => SCATTERED | _ => PHOTO_VIEW end /\
  lastGestureTime w1 = now /\ lastGestureTime w2 = now'.
Proof.
  intros Hp Hfo Hwin Hwin' w1 w2. subst w2 w1.
  apply rateLimited_false in Hwin.
  rewrite (processGestures_processed _ _ _ _ _ Hwin Hp). cbn [snd].
  assert (Hleb : (4 <=? fingersOpen) = true) by (apply Z.leb_le; exact Hfo).
  assert (H1 : processedWorld now fingersOpen true (jointAt landmarks 0) w =
               mkWorld now
                 (match currentStateRef w with SCATTERED => PHOTO_VIEW | _ => SCATTERED end)
                 (calls w ++ processedCalls (currentStateRef w) fingersOpen true
                               (jointAt landmarks 0))).
  { unfold processedWorld, commits, target, matchedRule. rewrite Hleb.
    destruct (currentStateRef w); reflexivity. }
  rewrite H1.
  match goal with |- context [processGestures now' landmarks ?w1] =>
    assert (Hr : rateLimited now' w1 = false)
      by (apply rateLimited_false; simpl; lia);
    rewrite (processGestures_processed _ _ _ _ _ Hr Hp)
  end.
  unfold processedWorld, commits, target, matchedRule. rewrite Hleb.
  cbn [currentStateRef lastGestureTime].
  destruct (currentStateRef w); repeat split.
Qed.

(** In PHOTO_VIEW a pinch with fewer than four open fingers matches no rule:
    however many such ticks arrive and whenever, the run invokes no callback
    and leaves the refs as they were. *)
Theorem held_pinch_keeps_PHOTO_VIEW (w : World) (ticks : list Tick) :
  currentStateRef w = PHOTO_VIEW ->
  (forall t, In t ticks -> exists fo, tickPose t = Some (fo, true) /\ fo < 4) ->
  run w ticks = w.
Proof.
  intro Hs. induction ticks as [| t ticks IH]; intro H; [reflexivity |].
  rewrite run_cons.
  assert (Ht : tick t w = w).
  { destruct (tick_effect t w) as [Hw | [fo [p [wrist [_ [Hp Hw]]]]]]; [exact Hw |].
    destruct (H t (or_introl eq_refl)) as [fo' [Hp' Hlt]].
    rewrite Hp in Hp'. injection Hp' as -> ->.
    rewrite Hw. unfold processedWorld, processedCalls, commits, target, matchedRule.
    rewrite Hs. destruct (Z.leb_spec 4 fo'); [lia |].
    destruct w as [last cur cs]. simpl in Hs. subst cur.
    simpl. rewrite andb_false_r. simpl. rewrite app_nil_r. reflexivity. }
  rewrite Ht. apply IH. intros t' Hin. apply H. right. exact Hin.
Qed.

(* ------------------------------------------------------------------ *)
(** ** The mount effect *)

Lemma tryBody_unmounted (b : Browser) :
  tryBody b unmounted =
  if fails b NewHands then inr unmounted
  else if fails b SetOptions then inr (mkMount false false false [NewHands] [])
  else if fails b RegisterOnResults
    then inr (mkMount false false false [NewHands; SetOptions] [])
  else if fails b NewCamera
    then inr (mkMount true false false [NewHands; SetOptions; RegisterOnResults] [])
  else if fails b CameraStart
    then inr (mkMount true false false
                [NewHands; SetOptions; RegisterOnResults; NewCamera] [])
  else inl (mkMount true true true
              [NewHands; SetOptions; RegisterOnResults; NewCamera; CameraStart] []).
Proof.
  unfold tryBody, andThen, external, assignHandsRef, assignCameraRef, setIsReady.
  simpl.
  destruct (fails b NewHands); [reflexivity |]. simpl.
  destruct (fails b SetOptions); [reflexivity |]. simpl.
  destruct (fails b RegisterOnResults); [reflexivity |]. simpl.
  destruct (fails b NewCamera); [reflexivity |]. simpl.
  destruct (fails b CameraStart); reflexivity.
Qed.

Ltac mount_cases b :=
  unfold mountEffect; rewrite tryBody_unmounted;
  destruct (hasHands b), (hasCamera b), (videoMounted b),
    (fails b NewHands) eqn:?, (fails b SetOptions) eqn:?,
    (fails b RegisterOnResults) eqn:?, (fails b NewCamera) eqn:?,
    (fails b CameraStart) eqn:?; simpl.

Ltac mount_solve :=
  repeat split; intros;
  repeat match goal with
         | H : _ /\ _ |- _ => destruct H
         | H : exists c, fails _ c = true |- _ =>
             let c := fresh "c" in destruct H as [c H]; destruct c
         end;
  try discriminate; try congruence; simpl; try tauto;
  try (intuition congruence); eauto 7.

(** The effect sets [isReady] exactly when both scripts are loaded, the
    video element is mounted and none of the five MediaPipe calls throws;
    then both refs are assigned, the five calls returned in program order
    and nothing was written to the console. *)
Theorem mount_ready_iff (b : Browser) :
  let m := mountEffect b unmounted in
  (isReady m = true <->
   hasHands b = true /\ hasCamera b = true /\ videoMounted b = true /\
   forall c, fails b c = false) /\
  (isReady m = true ->
   handsRef m = true /\ cameraRef m = true /\ console m = [] /\
   returned m = [NewHands; SetOptions; RegisterOnResults; NewCamera; CameraStart]).
Proof.
  intro m. subst m. split.
  - split.
    + mount_cases b; intro H; try discriminate H.
      repeat split. intro c. destruct c; assumption.
    + intros [Hh [Hc [Hv Hf]]]. unfold mountEffect. rewrite tryBody_unmounted.
      rewrite Hh, Hc, Hv, !Hf. reflexivity.
  - mount_cases b; intro H; try discriminate H. repeat split.
Qed.

(** How the effect fails: it writes at most one console line; the warning
    exactly when a script is missing, and then no MediaPipe call is made; the
    error exactly when scripts and video are there and one of the calls
    throws; an unmounted video is passed over in silence.  [cameraRef] is
    assigned only together with [isReady], while [handsRef] is assigned as
    soon as the results handler is registered, also when the camera then
    fails. *)
Theorem mount_failure_modes (b : Browser) :
  let m := mountEffect b unmounted in
  (console m = [ConsoleWarn] <-> hasHands b = false \/ hasCamera b = false) /\
  (console m = [ConsoleError] <->
   hasHands b = true /\ hasCamera b = true /\ videoMounted b = true /\
   exists c, fails b c = true) /\
  (console m = [] <->
   hasHands b = true /\ hasCamera b = true /\
   (videoMounted b = false \/ isReady m = true)) /\
  (hasHands b = false \/ hasCamera b = false \/ videoMounted b = false ->
   returned m = [] /\ handsRef m = false /\ cameraRef m = false /\ isReady m = false) /\
  cameraRef m = isReady m /\
  (handsRef m = true <-> In RegisterOnResults (returned m)).
Proof.
  intro m. subst m. mount_cases b; mount_solve.
Qed.

End GestureController.

(* ------------------------------------------------------------------ *)
(** ** Runs on concrete frames *)

(** The four frames classify as intended, the truncated one does not
    classify. *)
Example pose_of_frames :
  pose hypot_sqrt openPalmFrame = Normal (4, false) /\
  pose hypot_sqrt fistFrame = Normal (0, false) /\
  pose hypot_sqrt pinchFrame = Normal (0, true) /\
  pose hypot_sqrt twoFingerFrame = Normal (2, false) /\
  pose hypot_sqrt truncatedFrame = Throw TypeError.
Proof. repeat split; vm_compute; reflexivity. Qed.

(** Spec 8, scenario 1: two fists, then an open palm. *)
Example scenario_fist_fist_palm :
  run hypot_sqrt initialWorld
    [(1000, Some [fistFrame]); (1040, Some [fistFrame]); (1080, Some [openPalmFrame])]
  = mkWorld 1080 SCATTERED
      [onPhotoGrab false; onPhotoGrab false;
       onPhotoGrab false; onStateChange SCATTERED; onCameraMove 1 0].
Proof. vm_compute. reflexivity. Qed.

(** Spec 8, scenario 2: a pinch in SCATTERED, then a second pinch 100 ms
    later. *)
Example scenario_pinch_pinch :
  run hypot_sqrt (mkWorld 0 SCATTERED [])
    [(1000, Some [pinchFrame]); (1100, Some [pinchFrame])]
  = mkWorld 1000 PHOTO_VIEW [onPhotoGrab true; onStateChange PHOTO_VIEW].
Proof. vm_compute. reflexivity. Qed.

(** Spec 8, scenario 3: the wrist of the frames is at (0.25, 0.5). *)
Example scenario_camera :
  during (processGestures hypot_sqrt 1000 twoFingerFrame) (mkWorld 0 SCATTERED [])
  = [onCameraMove 1 0].
Proof. vm_compute. reflexivity. Qed.

Lemma rate_limit_returns_first_witness :
  0 <= 1100 - lastGestureTime (mkWorld 1000 SCATTERED []) < 500 /\
  processGestures hypot_sqrt 1100 openPalmFrame (mkWorld 1000 SCATTERED [])
    = (Normal tt, mkWorld 1000 SCATTERED []) /\
  during (processGestures hypot_sqrt 1100 openPalmFrame) (mkWorld 1000 SCATTERED []) = [].
Proof.
  split; [simpl; lia |].
  apply (rate_limit_returns_first hypot_sqrt 1100 openPalmFrame (mkWorld 1000 SCATTERED [])).
  simpl; lia.
Defined.

(** C4 as stated fails: after the palm tick at 1000 the machine is in
    SCATTERED; a fist at clock reading 900 requests TREE_SHAPE, a different
    state, and nothing commits. *)
Lemma backward_clock_blocks_transition :
  let w := run hypot_sqrt initialWorld [(1000, Some [openPalmFrame])] in
  900 < lastGestureTime w /\
  pose hypot_sqrt fistFrame = Normal (0, false) /\
  target (currentStateRef w) 0 false = TREE_SHAPE /\
  currentStateRef w = SCATTERED /\
  currentStateRef (snd (processGestures hypot_sqrt 900 fistFrame w)) = SCATTERED /\
  during (processGestures hypot_sqrt 900 fistFrame) w = [].
Proof. cbv zeta. repeat split; vm_compute; reflexivity. Qed.

Lemma backward_clock_is_rate_limited_witness :
  900 < lastGestureTime (mkWorld 1000 SCATTERED []) /\
  processGestures hypot_sqrt 900 fistFrame (mkWorld 1000 SCATTERED [])
    = (Normal tt, mkWorld 1000 SCATTERED []) /\
  during (processGestures hypot_sqrt 900 fistFrame) (mkWorld 1000 SCATTERED []) = [].
Proof.
  split; [simpl; lia |].
  apply (backward_clock_is_rate_limited hypot_sqrt 900 fistFrame (mkWorld 1000 SCATTERED [])).
  simpl; lia.
Defined.

(** C3 as stated fails: a hand of nine joints delivered at 1000 to the
    initial component makes the handler throw, where a tick without a hand
    returns normally. *)
Lemma truncated_frame_throws :
  (length truncatedFrame < 21)%nat /\
  onResults hypot_sqrt 1000 (Some [truncatedFrame]) initialWorld
    = (Throw TypeError, initialWorld) /\
  onResults hypot_sqrt 1000 None initialWorld = (Normal tt, initialWorld).
Proof. split; [simpl; lia | split; vm_compute; reflexivity]. Qed.

Lemma malformed_frame_throws_witness :
  malformed truncatedFrame /\
  processGestures hypot_sqrt 1000 truncatedFrame initialWorld
    = (if rateLimited 1000 initialWorld then Normal tt else Throw TypeError, initialWorld) /\
  during (processGestures hypot_sqrt 1000 truncatedFrame) initialWorld = [].
Proof.
  assert (H : malformed truncatedFrame) by (left; simpl; lia).
  split; [exact H |].
  apply (malformed_frame_throws hypot_sqrt 1000 truncatedFrame initialWorld H).
Defined.

Lemma ambiguous_pose_changes_nothing_witness :
  pose hypot_sqrt twoFingerFrame = Normal (2, false) /\
  1 <= 2 <= 3 /\
  matchedRule (currentStateRef initialWorld) 2 false = NoRule /\
  fst (processGestures hypot_sqrt 1000 twoFingerFrame initialWorld) = Normal tt /\
  currentStateRef (snd (processGestures hypot_sqrt 1000 twoFingerFrame initialWorld))
    = currentStateRef initialWorld /\
  lastGestureTime (snd (processGestures hypot_sqrt 1000 twoFingerFrame initialWorld))
    = lastGestureTime initialWorld /\
  filter isStateChange (during (processGestures hypot_sqrt 1000 twoFingerFrame) initialWorld) = [].
Proof.
  split; [vm_compute; reflexivity |]. split; [lia |].
  apply (ambiguous_pose_changes_nothing hypot_sqrt 1000 twoFingerFrame initialWorld 2).
  - vm_compute; reflexivity.
  - lia.
Defined.

Lemma commit_iff_new_target_and_window_witness :
  pose hypot_sqrt openPalmFrame = Normal (4, false) /\
  let cur := currentStateRef initialWorld in
  let tgt := target cur 4 false in
  let w' := snd (processGestures hypot_sqrt 1000 openPalmFrame initialWorld) in
  let emitted := during (processGestures hypot_sqrt 1000 openPalmFrame) initialWorld in
  (In (onStateChange tgt) emitted <->
     tgt <> cur /\ 500 <= 1000 - lastGestureTime initialWorld) /\
  (tgt <> cur /\ 500 <= 1000 - lastGestureTime initialWorld ->
     filter isStateChange emitted = [onStateChange tgt] /\
     currentStateRef w' = tgt /\ lastGestureTime w' = 1000 /\
     forall now' landmarks', now' - 1000 < 500 ->
       processGestures hypot_sqrt now' landmarks' w' = (Normal tt, w')) /\
  (~ (tgt <> cur /\ 500 <= 1000 - lastGestureTime initialWorld) ->
     filter isStateChange emitted = [] /\
     currentStateRef w' = cur /\ lastGestureTime w' = lastGestureTime initialWorld).
Proof.
  split; [vm_compute; reflexivity |].
  apply (commit_iff_new_target_and_window hypot_sqrt 1000 openPalmFrame initialWorld 4 false).
  vm_compute; reflexivity.
Defined.

Lemma PHOTO_VIEW_only_from_SCATTERED_pinch_witness :
  let pre := [(1000, Some [openPalmFrame])] in
  let t := (1600, Some [pinchFrame]) in
  let w := run hypot_sqrt initialWorld pre in
  ((currentStateRef (tick hypot_sqrt t w) = PHOTO_VIEW /\ currentStateRef w <> PHOTO_VIEW) \/
   In (onStateChange PHOTO_VIEW) (during (onResults hypot_sqrt (fst t) (snd t)) w)) /\
  currentStateRef w = SCATTERED /\ tickPinching hypot_sqrt t = true.
Proof.
  cbv zeta.
  assert (H : currentStateRef
                (tick hypot_sqrt (1600, Some [pinchFrame])
                   (run hypot_sqrt initialWorld [(1000, Some [openPalmFrame])])) = PHOTO_VIEW /\
              currentStateRef (run hypot_sqrt initialWorld [(1000, Some [openPalmFrame])])
                <> PHOTO_VIEW)
    by (split; vm_compute; [reflexivity | discriminate]).
  split; [left; exact H |].
  apply (PHOTO_VIEW_only_from_SCATTERED_pinch hypot_sqrt
           [(1000, Some [openPalmFrame])] (1600, Some [pinchFrame])).
  left; exact H.
Defined.

(** C1 as stated fails: 100 ms after the palm tick that committed SCATTERED,
    a second palm frame classifies to rule 2 and no [onPhotoGrab(false)] is
    invoked. *)
Lemma photoGrab_dropped_inside_window :
  let w := run hypot_sqrt initialWorld [(1000, Some [openPalmFrame])] in
  1100 - lastGestureTime w < 500 /\
  pose hypot_sqrt openPalmFrame = Normal (4, false) /\
  matchedRule (currentStateRef w) 4 false = Rule2 /\
  ~ In (onPhotoGrab false) (during (processGestures hypot_sqrt 1100 openPalmFrame) w).
Proof.
  cbv zeta. split; [vm_compute; reflexivity |].
  split; [vm_compute; reflexivity |].
  split; [vm_compute; reflexivity |].
  vm_compute. intros [].
Qed.

Lemma photoGrab_follows_rule_past_rate_limit_witness :
  pose hypot_sqrt openPalmFrame = Normal (4, false) /\
  filter isPhotoGrab
    (during (processGestures hypot_sqrt 1000 openPalmFrame) (mkWorld 0 SCATTERED [])) =
    if rateLimited 1000 (mkWorld 0 SCATTERED []) then []
    else match matchedRule (currentStateRef (mkWorld 0 SCATTERED [])) 4 false with
         | Rule1 => [onPhotoGrab true]
         | Rule2 | Rule3 => [onPhotoGrab false]
         | NoRule => []
         end.
Proof.
  split; [vm_compute; reflexivity |].
  apply (photoGrab_follows_rule_past_rate_limit hypot_sqrt 1000 openPalmFrame
           (mkWorld 0 SCATTERED []) 4 false).
  vm_compute; reflexivity.
Defined.

(** C2 as stated fails: 100 ms after the palm tick that committed SCATTERED,
    a hand is delivered, the state is SCATTERED, and no callback is invoked,
    [onCameraMove] included. *)
Lemma cameraMove_dropped_inside_window :
  let w := run hypot_sqrt initialWorld [(1000, Some [openPalmFrame])] in
  currentStateRef w = SCATTERED /\
  wellFormed openPalmFrame = true /\
  during (onResults hypot_sqrt 1100 (Some [openPalmFrame])) w = [].
Proof. cbv zeta. repeat split; vm_compute; reflexivity. Qed.

Lemma cameraMove_while_SCATTERED_witness :
  pose hypot_sqrt openPalmFrame = Normal (4, false) /\
  currentStateRef (mkWorld 0 SCATTERED []) = SCATTERED /\
  filter isCameraMove
    (during (onResults hypot_sqrt 1000 (Some [openPalmFrame])) (mkWorld 0 SCATTERED [])) =
    if rateLimited 1000 (mkWorld 0 SCATTERED []) then []
    else if TreeState_eqb (target SCATTERED 4 false) SCATTERED
         then [onCameraMove ((0.5 - x (jointAt openPalmFrame 0)) * 4)
                            ((0.5 - y (jointAt openPalmFrame 0)) * 2)]
         else [].
Proof.
  split; [vm_compute; reflexivity |]. split; [reflexivity |].
  apply (cameraMove_while_SCATTERED hypot_sqrt 1000 openPalmFrame []
           (mkWorld 0 SCATTERED []) 4 false).
  - vm_compute; reflexivity.
  - reflexivity.
Defined.

Lemma classifier_counts_four_fingers_witness :
  wellFormed openPalmFrame = true /\
  (forall w, classifyPose hypot_sqrt openPalmFrame w =
     (Normal (fingersOpenSpec hypot_sqrt openPalmFrame,
              isPinchingSpec hypot_sqrt openPalmFrame), w)) /\
  0 <= fingersOpenSpec hypot_sqrt openPalmFrame <= 4 /\
  (isPinchingSpec hypot_sqrt openPalmFrame = true <->
   PrimFloat.ltb
     (hypot_sqrt (x (jointAt openPalmFrame 4) - x (jointAt openPalmFrame 8))
                 (y (jointAt openPalmFrame 4) - y (jointAt openPalmFrame 8))) 0.05 = true) /\
  (forall landmarks',
     (forall i, (i < 1 \/ 4 < i)%nat -> index landmarks' i = index openPalmFrame i) ->
     fingersOpenSpec hypot_sqrt landmarks' = fingersOpenSpec hypot_sqrt openPalmFrame).
Proof.
  split; [vm_compute; reflexivity |].
  apply (classifier_counts_four_fingers hypot_sqrt openPalmFrame).
  vm_compute; reflexivity.
Defined.

(* ------------------------------------------------------------------ *)
(** ** Further runs on concrete frames *)

Lemma step_reads_expected_joints_only_witness :
  (forall i, In i expectedIndices -> index paddedPalmFrame i = index openPalmFrame i) /\
  processGestures hypot_sqrt 1000 paddedPalmFrame initialWorld
    = processGestures hypot_sqrt 1000 openPalmFrame initialWorld.
Proof.
  assert (H : forall i, In i expectedIndices ->
                        index paddedPalmFrame i = index openPalmFrame i).
  { intros i Hi. simpl in Hi.
    repeat (destruct Hi as [<- | Hi]; [reflexivity |]). destruct Hi. }
  split; [exact H |].
  apply (step_reads_expected_joints_only hypot_sqrt 1000 openPalmFrame paddedPalmFrame
           initialWorld H).
Defined.

Lemma stateChange_comes_with_photoGrab_witness :
  In (onStateChange SCATTERED)
     (during (processGestures hypot_sqrt 1000 openPalmFrame) initialWorld) /\
  In (onPhotoGrab (TreeState_eqb SCATTERED PHOTO_VIEW))
     (during (processGestures hypot_sqrt 1000 openPalmFrame) initialWorld) /\
  SCATTERED <> currentStateRef initialWorld /\
  currentStateRef (snd (processGestures hypot_sqrt 1000 openPalmFrame initialWorld))
    = SCATTERED /\
  lastGestureTime (snd (processGestures hypot_sqrt 1000 openPalmFrame initialWorld)) = 1000.
Proof.
  assert (H : In (onStateChange SCATTERED)
                 (during (processGestures hypot_sqrt 1000 openPalmFrame) initialWorld))
    by (vm_compute; right; left; reflexivity).
  split; [exact H |].
  apply (stateChange_comes_with_photoGrab hypot_sqrt 1000 openPalmFrame initialWorld
           SCATTERED H).
Defined.

Lemma run_frozen_inside_window_witness :
  (forall t, In t [(1100, Some [fistFrame]); (900, Some [pinchFrame]); (1499, None)] ->
             fst t - lastGestureTime (mkWorld 1000 SCATTERED []) < 500) /\
  run hypot_sqrt (mkWorld 1000 SCATTERED [])
    [(1100, Some [fistFrame]); (900, Some [pinchFrame]); (1499, None)]
  = mkWorld 1000 SCATTERED [].
Proof.
  assert (H : forall t,
             In t [(1100, Some [fistFrame]); (900, Some [pinchFrame]); (1499, None)] ->
             fst t - lastGestureTime (mkWorld 1000 SCATTERED []) < 500).
  { intros t [<- | [<- | [<- | []]]]; simpl; lia. }
  split; [exact H |].
  apply (run_frozen_inside_window hypot_sqrt (mkWorld 1000 SCATTERED []) _ H).
Defined.

Lemma held_pose_is_stable_witness :
  pose hypot_sqrt openPalmFrame = Normal (4, false) /\
  500 <= 1000 - lastGestureTime initialWorld /\
  (false = false \/ 4 < 4) /\
  let w1 := snd (processGestures hypot_sqrt 1000 openPalmFrame initialWorld) in
  let w2 := snd (processGestures hypot_sqrt 5000 openPalmFrame w1) in
  currentStateRef w2 = currentStateRef w1 /\
  lastGestureTime w2 = lastGestureTime w1 /\
  filter isStateChange (during (processGestures hypot_sqrt 5000 openPalmFrame) w1) = [].
Proof.
  split; [vm_compute; reflexivity |].
  split; [simpl; lia |].
  split; [left; reflexivity |].
  apply (held_pose_is_stable hypot_sqrt 1000 5000 openPalmFrame initialWorld 4 false).
  - vm_compute; reflexivity.
  - simpl; lia.
  - left; reflexivity.
Defined.

Lemma pinch_with_open_hand_toggles_witness :
  pose hypot_sqrt pinchOpenFrame = Normal (4, true) /\
  4 <= 4 /\
  500 <= 1000 - lastGestureTime (mkWorld 0 SCATTERED []) /\
  500 <= 1500 - 1000 /\
  let w1 := snd (processGestures hypot_sqrt 1000 pinchOpenFrame (mkWorld 0 SCATTERED [])) in
  let w2 := snd (processGestures hypot_sqrt 1500 pinchOpenFrame w1) in
  currentStateRef w1 =
    match currentStateRef (mkWorld 0 SCATTERED []) with
    | SCATTERED => PHOTO_VIEW | _ => SCATTERED end /\
  currentStateRef w2 =
    match currentStateRef (mkWorld 0 SCATTERED []) with
    | SCATTERED => SCATTERED | _ => PHOTO_VIEW end /\
  lastGestureTime w1 = 1000 /\ lastGestureTime w2 = 1500.
Proof.
  split; [vm_compute; reflexivity |].
  split; [lia |]. split; [simpl; lia |]. split; [lia |].
  apply (pinch_with_open_hand_toggles hypot_sqrt 1000 1500 pinchOpenFrame
           (mkWorld 0 SCATTERED []) 4).
  - vm_compute; reflexivity.
  - lia.
  - simpl; lia.
  - lia.
Defined.

Lemma held_pinch_keeps_PHOTO_VIEW_witness :
  currentStateRef (mkWorld 1000 PHOTO_VIEW []) = PHOTO_VIEW /\
  (forall t, In t [(1600, Some [pinchFrame]); (2200, Some [pinchFrame])] ->
             exists fo, tickPose hypot_sqrt t = Some (fo, true) /\ fo < 4) /\
  run hypot_sqrt (mkWorld 1000 PHOTO_VIEW [])
    [(1600, Some [pinchFrame]); (2200, Some [pinchFrame])]
  = mkWorld 1000 PHOTO_VIEW [].
Proof.
  assert (H : forall t, In t [(1600, Some [pinchFrame]); (2200, Some [pinchFrame])] ->
                        exists fo, tickPose hypot_sqrt t = Some (fo, true) /\ fo < 4).
  { intros t [<- | [<- | []]]; exists 0; (split; [vm_compute; reflexivity | lia]). }
  split; [reflexivity |]. split; [exact H |].
  apply (held_pinch_keeps_PHOTO_VIEW hypot_sqrt (mkWorld 1000 PHOTO_VIEW []) _ eq_refl H).
Defined.
